(** * The chat relay of [api/app.py]

    A shallow embedding of the FastAPI application in [api/app.py]: the
    [ChatRequest] schema, the model probing loop and the failure
    classifier of [chat], the [generate] relay of content deltas, and
    [health_check].

    The only effect of the program is its use of the upstream provider.
    It is modelled by explicit state passing: the state is the
    chronological log of the clients constructed and of the
    [client.chat.completions.create] calls issued so far, and the
    provider is an oracle that answers a call given that log. *)

From Stdlib Require Import ZArith String Ascii List Bool Lia.
From stdpp Require Import base strings list gmap.

Local Open Scope string_scope.
Local Open Scope list_scope.
Local Open Scope Z_scope.

(** ** Python strings

    Error texts are strings of 8-bit characters; [lower] is [str.lower]
    on ASCII text and [contains needle hay] is [needle in hay]. *)

Module PyStr.

Definition lower_char (c : ascii) : ascii :=
  let n := nat_of_ascii c in
  if Nat.leb 65 n && Nat.leb n 90 then ascii_of_nat (n + 32) else c.

Fixpoint lower (s : string) : string :=
  match s with
  | EmptyString => EmptyString
  | String c s' => String (lower_char c) (lower s')
  end.

Fixpoint contains (needle hay : string) : bool :=
  String.prefix needle hay
  || match hay with
     | EmptyString => false
     | String _ hay' => contains needle hay'
     end.

(** The specification of [in]: [needle] occurs somewhere inside [hay]. *)
Definition Occurs (needle hay : string) : Prop :=
  exists before after, hay = before +:+ needle +:+ after.

(** Two texts that differ only in the case of their ASCII letters. *)
Definition same_up_to_case (s t : string) : Prop := lower s = lower t.

End PyStr.

(** ** Request bodies and the [ChatRequest] schema *)

(** A value of a field of the JSON body.  No field of the schema reads
    inside an array or an object, so these are one constructor. *)
Inductive jvalue :=
| JNull
| JBool (b : bool)
| JNumber (n : Z)
| JString (s : string)
| JCompound.

Inductive request_body :=
| BodyObject (fields : gmap string jvalue)
| BodyNotObject.

Record ChatRequest := mkChatRequest {
  developer_message : string;
  user_message : string;
  model : option string;
  api_key : string
}.

(** A field annotated [str] without default: required, and a string. *)
Definition required_str (fields : gmap string jvalue) (name : string)
  : option string :=
  match fields !! name with
  | Some (JString s) => Some s
  | _ => None
  end.

(** A field annotated [Optional[str] = default]. *)
Definition optional_str (fields : gmap string jvalue) (name : string)
    (default : option string) : option (option string) :=
  match fields !! name with
  | None => Some default
  | Some JNull => Some None
  | Some (JString s) => Some (Some s)
  | Some _ => None
  end.

(** Validation of a body against [ChatRequest]; [None] is a validation
    error.  Fields the schema does not declare are ignored. *)
Definition validate_ChatRequest (b : request_body) : option ChatRequest :=
  match b with
  | BodyNotObject => None
  | BodyObject fields =>
      match required_str fields "developer_message",
            required_str fields "user_message",
            optional_str fields "model" (Some "gpt-4.1"),
            required_str fields "api_key" with
      | Some d, Some u, Some m, Some k => Some (mkChatRequest d u m k)
      | _, _, _, _ => None
      end
  end.

Definition MODEL_CANDIDATES : list string :=
  [ "gpt-4.1-nano"; "gpt-4.1-mini"; "gpt-3.5-turbo"; "gpt-4.1" ].

(** ** The upstream provider *)

(** An exception that is not an [HTTPException]; [exc_text e] is
    [str(e)]. *)
Record Exception := mkException {
  exc_type : string;
  exc_text : string
}.

Record message := mkMessage {
  role : string;
  content : string
}.

(** The arguments of one [client.chat.completions.create] call, with the
    key the client was built with. *)
Record create_call := mkCall {
  call_api_key : string;
  call_model : string;
  call_messages : list message;
  call_max_tokens : option Z;
  call_stream : bool
}.

Record Choice := mkChoice { delta_content : option string }.
Record Chunk := mkChunk { choices : list Choice }.

(** What the relay does to the outside, in the order it does it. *)
Inductive event :=
| EvClient (key : string)
| EvCreate (call : create_call).

(** What a call gives back.  The completion object of a non-streaming
    call is never inspected by the relay; for a streaming call the
    chunks arrive in list order and [broken] is the exception the
    iteration raises after the last of them, if any. *)
Inductive create_result :=
| Raises (e : Exception)
| Returns (chunks : list Chunk) (broken : option Exception).

(** [OpenAI_init key] is the exception [OpenAI(api_key=key)] raises, if
    any; [create log call] answers [call] after the events of [log]. *)
Record Upstream := mkUpstream {
  OpenAI_init : string -> option Exception;
  create : list event -> create_call -> create_result
}.

Definition raised_by (r : create_result) : option Exception :=
  match r with
  | Raises e => Some e
  | Returns _ _ => None
  end.

(** ** Exceptions and results of the handler *)

Inductive raised :=
| HTTPException (status_code : Z) (detail : string)
| Uncaught (e : Exception).

Inductive outcome (A : Type) :=
| Return (a : A)
| Raise (e : raised).
Arguments Return {A} a.
Arguments Raise {A} e.

(** The generator object made by [generate()]: the variables its body
    captures.  Nothing of the body runs before the response is
    iterated. *)
Record generator := mkGenerator {
  gen_api_key : string;
  gen_working_model : string;
  gen_request : ChatRequest
}.

Record StreamingResponse := mkStreamingResponse {
  body_iterator : generator;
  media_type : string
}.

(** What the caller sees. *)
Inductive http_response :=
| JSONResponse (status : Z) (body : gmap string string)
| StreamedBody (status : Z) (mime : string) (fragments : list string)
    (aborted : option Exception)
| ValidationError (status : Z)
| NoRoute (status : Z).

Record http_request := mkRequest {
  method : string;
  path : string;
  query : string;
  headers : list (string * string);
  body : request_body
}.

(** Truthiness of [working_model]: [None] and the empty string are
    false. *)
Definition truthy (working_model : option string) : option string :=
  match working_model with
  | Some EmptyString => None
  | Some m => Some m
  | None => None
  end.

Definition probe_call (key model_name : string) : create_call :=
  {| call_api_key := key;
     call_model := model_name;
     call_messages := [ mkMessage "user" "test" ];
     call_max_tokens := Some 1;
     call_stream := false |}.

Definition stream_call (key working_model : string) (request : ChatRequest)
  : create_call :=
  {| call_api_key := key;
     call_model := working_model;
     call_messages := [ mkMessage "user" (user_message request) ];
     call_max_tokens := None;
     call_stream := true |}.

(** The four tests of the failure classifier, in the order of the
    [if]/[elif] chain. *)
Definition classify (error_message : string) : Z :=
  if PyStr.contains "insufficient_quota" error_message
     || PyStr.contains "quota" (PyStr.lower error_message)
  then 429
  else if PyStr.contains "model_not_found" error_message
  then 404
  else if PyStr.contains "authentication" (PyStr.lower error_message)
          || PyStr.contains "invalid_api_key" (PyStr.lower error_message)
  then 401
  else 500.

Definition IndexError : Exception :=
  mkException "IndexError" "list index out of range".

(** The [for chunk in stream] loop of [generate]: the fragments yielded,
    and the exception of [chunk.choices[0]] on a chunk without
    choices. *)
Fixpoint relay_chunks (stream : list Chunk) : list string * option Exception :=
  match stream with
  | [] => ([], None)
  | chunk :: rest =>
      match choices chunk with
      | [] => ([], Some IndexError)
      | choice :: _ =>
          match delta_content choice with
          | Some text =>
              let '(out, err) := relay_chunks rest in (text :: out, err)
          | None => relay_chunks rest
          end
      end
  end.

Record probe_state := mkProbeState {
  working_model : option string;
  last_exception : option Exception;
  calls : list event
}.

Definition health_check : gmap string string := {[ "status" := "ok" ]}.

Section Relay.

Variable up : Upstream.

(** The [for model_name in MODEL_CANDIDATES] loop, with its [break] and
    [continue]. *)
Fixpoint probe_models (key : string) (candidates : list string)
    (last : option Exception) (log : list event) : probe_state :=
  match candidates with
  | [] => mkProbeState None last log
  | model_name :: rest =>
      let call := probe_call key model_name in
      match create up log call with
      | Returns _ _ =>
          mkProbeState (Some model_name) last (log ++ [EvCreate call])
      | Raises e => probe_models key rest (Some e) (log ++ [EvCreate call])
      end
  end.

(** The body of the outer [try] of [chat]. *)
Definition chat_try (request : ChatRequest) (log : list event)
  : outcome StreamingResponse * list event :=
  let log := log ++ [EvClient (api_key request)] in
  match OpenAI_init up (api_key request) with
  | Some e => (Raise (Uncaught e), log)
  | None =>
      let st := probe_models (api_key request) MODEL_CANDIDATES None log in
      match truthy (working_model st) with
      | None =>
          let error_message :=
            match last_exception st with
            | Some e => exc_text e
            | None => "No models available"
            end in
          (Raise (HTTPException (classify error_message) error_message),
           calls st)
      | Some m =>
          (Return (mkStreamingResponse
                     (mkGenerator (api_key request) m request) "text/plain"),
           calls st)
      end
  end.

(** [chat]: the [try] with its two [except] clauses. *)
Definition chat (request : ChatRequest) (log : list event)
  : outcome StreamingResponse * list event :=
  match chat_try request log with
  | (Return r, log') => (Return r, log')
  | (Raise (HTTPException s d), log') => (Raise (HTTPException s d), log')
  | (Raise (Uncaught e), log') =>
      (Raise (HTTPException 500 (exc_text e)), log')
  end.

(** Running the body of [generate]: the fragments yielded, how the
    iteration ended, and the log. *)
Definition generate (g : generator) (log : list event)
  : list string * option Exception * list event :=
  let call := stream_call (gen_api_key g) (gen_working_model g)
                (gen_request g) in
  match create up log call with
  | Raises e => ([], Some e, log ++ [EvCreate call])
  | Returns chunks broken =>
      let '(out, err) := relay_chunks chunks in
      (out, match err with Some e => Some e | None => broken end,
       log ++ [EvCreate call])
  end.

(** What the framework does with the result of [chat]: the JSON
    rendering of an [HTTPException], and the iteration of a
    [StreamingResponse]. *)
Definition respond_chat (request : ChatRequest) (log : list event)
  : http_response * list event :=
  match chat request log with
  | (Raise (HTTPException s d), log') =>
      (JSONResponse s {[ "detail" := d ]}, log')
  | (Raise (Uncaught e), log') =>
      (JSONResponse 500 {[ "detail" := "Internal Server Error" ]}, log')
  | (Return r, log') =>
      let '(out, err, log'') := generate (body_iterator r) log' in
      (StreamedBody 200 (media_type r) out err, log'')
  end.

(** The framework around the handlers: routing, and validation of the
    body of [POST /api/chat] against [ChatRequest] before [chat] is
    called. *)
Definition serve (req : http_request) (log : list event)
  : http_response * list event :=
  if String.eqb (path req) "/api/health" then
    if String.eqb (method req) "GET"
    then (JSONResponse 200 health_check, log)
    else (NoRoute 405, log)
  else if String.eqb (path req) "/api/chat" then
    if String.eqb (method req) "POST" then
      match validate_ChatRequest (body req) with
      | None => (ValidationError 422, log)
      | Some request => respond_chat request log
      end
    else (NoRoute 405, log)
  else (NoRoute 404, log).

(** The answer of the provider to the probe of the [j]-th candidate of
    [candidates], when the probes before it have been issued after
    [log]. *)
Definition answer_at (key : string) (candidates : list string)
    (log : list event) (j : nat) : create_result :=
  create up
    (log ++ (EvCreate <$> (probe_call key <$> take j candidates)))
    (probe_call key (nth j candidates EmptyString)).

End Relay.

(** The probe calls of the first [n] candidates. *)
Definition probes (key : string) (n : nat) : list event :=
  EvCreate <$> (probe_call key <$> take n MODEL_CANDIDATES).

Definition probe_answer (up : Upstream) (key : string) (log : list event)
    (j : nat) : create_result :=
  answer_at up key MODEL_CANDIDATES log j.

(** The content delta of a chunk, as [generate] reads it. *)
Definition first_delta (chunk : Chunk) : option string :=
  match choices chunk with
  | [] => None
  | choice :: _ => delta_content choice
  end.

Definition text_chunk (text : option string) : Chunk :=
  mkChunk [ mkChoice text ].



(** ** Providers used to exercise the relay *)

(** A provider that ignores the log: the probe of [m] raises [fails m]
    when there is one, and a streaming call returns [stream]. *)
Definition scripted (fails : string -> option Exception)
    (stream : list Chunk) : Upstream :=
  {| OpenAI_init := fun _ => None;
     create := fun _ call =>
       if call_stream call then Returns stream None
       else match fails (call_model call) with
            | Some e => Raises e
            | None => Returns [] None
            end |}.

Definition all_fail (text : string) : Upstream :=
  scripted (fun _ => Some (mkException "APIError" text)) [].

Definition all_work (stream : list Chunk) : Upstream :=
  scripted (fun _ => None) stream.

Definition only_works (m : string) (stream : list Chunk) : Upstream :=
  scripted (fun m' => if String.eqb m' m then None
                      else Some (mkException "NotFoundError" m')) stream.

Definition no_client (e : Exception) : Upstream :=
  {| OpenAI_init := fun _ => Some e;
     create := fun _ _ => Returns [] None |}.

Definition sample_request : ChatRequest :=
  mkChatRequest "be brief" "hi" (Some "gpt-4.1") "sk-test".

Definition sample_fields : gmap string jvalue :=
  {[ "developer_message" := JString "be brief";
     "user_message" := JString "hi";
     "api_key" := JString "sk-test" ]}.

Definition post_chat (fields : gmap string jvalue) : http_request :=
  mkRequest "POST" "/api/chat" "" [] (BodyObject fields).

(** The three classes of error text of the failure classifier, stated
    with [Occurs].  The quota and the credential words are looked for in
    the lower-cased text, the two error codes [insufficient_quota] and
    [model_not_found] in the text as it is. *)
Definition mentions (word text : string) : Prop := PyStr.Occurs word text.

Definition mentions_any_case (word text : string) : Prop :=
  PyStr.Occurs word (PyStr.lower text).


Definition missing_model_text (text : string) : Prop :=
  mentions "model_not_found" text.

Definition credential_text (text : string) : Prop :=
  mentions_any_case "authentication" text
  \/ mentions_any_case "invalid_api_key" text.


(** An event that carries nothing of a request but its key, and as
    message content only ["test"] or, in a streaming call, the
    [user_message]. *)
Definition carries_only (request : ChatRequest) (ev : event) : Prop :=
  match ev with
  | EvClient key => key = api_key request
  | EvCreate call =>
      call_api_key call = api_key request
      /\ (call_messages call = [ mkMessage "user" "test" ]
          \/ (call_stream call = true
              /\ call_messages call
                 = [ mkMessage "user" (user_message request) ]))
  end.

Definition hello_chunks : list Chunk :=
  [ text_chunk (Some "Hello"); text_chunk (Some ", ");
    text_chunk (Some "world") ].


Definition empty_fields : gmap string jvalue :=
  {[ "developer_message" := JString "";
     "user_message" := JString "";
     "api_key" := JString "sk-test" ]}.

Definition other_request : ChatRequest :=
  mkChatRequest "answer in French" "hi" None "sk-test".

(** ** Further vocabulary *)

(** The names of the fields [ChatRequest] declares. *)
Definition schema_fields : list string :=
  [ "developer_message"; "user_message"; "model"; "api_key" ].

(** The JSON object that spells out every field of a request. *)
Definition fields_of (request : ChatRequest) : gmap string jvalue :=
  {[ "developer_message" := JString (developer_message request);
     "user_message" := JString (user_message request);
     "model" := match model request with
                | Some m => JString m
                | None => JNull
                end;
     "api_key" := JString (api_key request) ]}.

Definition has_choice (chunk : Chunk) : bool :=
  match choices chunk with
  | [] => false
  | _ :: _ => true
  end.

(** The chunks that come before the first chunk without choices. *)
Fixpoint readable (stream : list Chunk) : list Chunk :=
  match stream with
  | [] => []
  | chunk :: rest => if has_choice chunk then chunk :: readable rest else []
  end.

(** A chunk cut down to its first choice. *)
Definition first_choice_only (chunk : Chunk) : Chunk :=
  mkChunk (take 1 (choices chunk)).

Definition error_statuses : list Z := [ 401; 404; 429; 500 ].

(** The events that are streaming calls. *)
Definition is_streaming (ev : event) : bool :=
  match ev with
  | EvClient _ => false
  | EvCreate call => call_stream call
  end.

(** A provider whose probes all work and whose streaming call raises. *)
Definition stream_raises (e : Exception) : Upstream :=
  {| OpenAI_init := fun _ => None;
     create := fun _ call =>
       if call_stream call then Raises e else Returns [] None |}.

(** A provider whose probe of the [n]-th call overall raises the [n]-th
    of [texts], and the last of them from there on. *)
Definition failing_with (texts : list string) (final : string) : Upstream :=
  {| OpenAI_init := fun _ => None;
     create := fun log _ =>
       Raises (mkException "APIError"
                 (nth (length log - 1) texts final)) |}.

Definition headless_chunks : list Chunk :=
  [ text_chunk (Some "Hel"); mkChunk []; text_chunk (Some "lo") ].

(** * Facts *)

(** ** Strings *)

Lemma append_cons (c : ascii) (a b : string) :
  String c a +:+ b = String c (a +:+ b).
Proof. reflexivity. Qed.

Lemma append_assoc (a b c : string) : (a +:+ b) +:+ c = a +:+ (b +:+ c).
Proof.
  induction a as [|x a IH]; [reflexivity |].
  now rewrite !append_cons, IH.
Qed.

Lemma prefix_spec (p s : string) :
  String.prefix p s = true <-> exists after, s = p +:+ after.
Proof.
  revert s. induction p as [|c p IH]; intros s.
  - split; [intros _; now exists s | intros _; now destruct s].
  - destruct s as [|d s]; simpl.
    + split; [discriminate | intros [after H]; discriminate].
    + destruct (Ascii.ascii_dec c d) as [->|Hne].
      * rewrite IH. split; intros [after H]; exists after.
        -- now rewrite H.
        -- rewrite append_cons in H. now inversion H.
      * split; [discriminate |].
        intros [after H]. rewrite append_cons in H. congruence.
Qed.

Lemma contains_spec (needle hay : string) :
  PyStr.contains needle hay = true <-> PyStr.Occurs needle hay.
Proof.
  unfold PyStr.Occurs. induction hay as [|c hay IH].
  - cbn [PyStr.contains]. rewrite orb_false_r, prefix_spec. split.
    + intros [after H]. now exists "", after.
    + intros [before [after H]]. destruct before; [now exists after |].
      discriminate.
  - cbn [PyStr.contains]. rewrite orb_true_iff, prefix_spec, IH. split.
    + intros [[after H] | [before [after H]]].
      * now exists "", after.
      * exists (String c before), after. now rewrite append_cons, H.
    + intros [before [after H]]. destruct before as [|d before].
      * left. now exists after.
      * right. rewrite append_cons in H. inversion H.
        now exists before, after.
Qed.

Lemma contains_false (needle hay : string) :
  PyStr.contains needle hay = false <-> ~ PyStr.Occurs needle hay.
Proof.
  rewrite <- contains_spec. destruct (PyStr.contains needle hay); split;
    congruence.
Qed.

Lemma lower_append (a b : string) :
  PyStr.lower (a +:+ b) = PyStr.lower a +:+ PyStr.lower b.
Proof.
  induction a as [|c a IH]; [reflexivity |].
  rewrite append_cons. cbn [PyStr.lower]. now rewrite IH, append_cons.
Qed.


(** ** The probing loop over any list of candidates *)

Section ProbeFacts.

Variable up : Upstream.
Variable key : string.

Lemma answer_at_head (m : string) (rest : list string) (log : list event) :
  answer_at up key (m :: rest) log 0 = create up log (probe_call key m).
Proof. unfold answer_at. simpl. now rewrite app_nil_r. Qed.

Lemma answer_at_cons (m : string) (rest : list string) (log : list event)
    (j : nat) :
  answer_at up key (m :: rest) log (S j)
  = answer_at up key rest (log ++ [EvCreate (probe_call key m)]) j.
Proof. unfold answer_at. simpl. now rewrite <- app_assoc. Qed.

(** Candidates whose probes raise are passed over: each leaves its call
    in the log and its exception in [last_exception]. *)
Lemma probe_models_skip (candidates : list string) :
  forall (n : nat) (last : option Exception) (log : list event),
    (n <= length candidates)%nat ->
    (forall j, (j < n)%nat ->
               exists e, answer_at up key candidates log j = Raises e) ->
    probe_models up key candidates last log
    = probe_models up key (drop n candidates)
        (match n with
         | O => last
         | S j => raised_by (answer_at up key candidates log j)
         end)
        (log ++ (EvCreate <$> (probe_call key <$> take n candidates))).
Proof.
  induction candidates as [|m rest IH]; intros n last log Hn Hfail.
  - rewrite drop_nil, take_nil. simpl. rewrite app_nil_r.
    destruct n as [|j]; [reflexivity | simpl in Hn; lia].
  - destruct n as [|n]; [simpl; now rewrite app_nil_r |].
    destruct (Hfail O) as [e He]; [lia |].
    pose proof He as He'. rewrite answer_at_head in He'.
    cbn [probe_models]. rewrite He'.
    rewrite (IH n (Some e)).
    + cbn [drop take fmap list_fmap]. rewrite <- app_assoc. cbn [app].
      f_equal. destruct n as [|j]; [now rewrite He |].
      now rewrite answer_at_cons.
    + simpl in Hn. lia.
    + intros j Hj. rewrite <- answer_at_cons. apply Hfail. lia.
Qed.

(** First success wins. *)
Lemma probe_models_first_success (candidates : list string) (i : nat)
    (m : string) (last : option Exception) (log : list event) :
  candidates !! i = Some m ->
  (forall j, (j < i)%nat ->
             exists e, answer_at up key candidates log j = Raises e) ->
  raised_by (answer_at up key candidates log i) = None ->
  probe_models up key candidates last log
  = mkProbeState (Some m)
      (match i with
       | O => last
       | S j => raised_by (answer_at up key candidates log j)
       end)
      (log ++ (EvCreate <$> (probe_call key <$> take (S i) candidates))).
Proof.
  intros Hm Hfail Hok.
  pose proof (lookup_lt_Some _ _ _ Hm) as Hi.
  rewrite (probe_models_skip candidates i last log); [| lia | exact Hfail].
  rewrite (drop_S _ _ _ Hm). cbn [probe_models].
  unfold answer_at in Hok.
  rewrite (nth_lookup_Some _ _ _ _ Hm) in Hok.
  destruct (create up _ (probe_call key m)) as [e|chunks broken];
    [discriminate |].
  rewrite (take_S_r _ _ _ Hm), !fmap_app, app_assoc. reflexivity.
Qed.

(** When every probe raises, the loop ends without a working model and
    with the exception of the last candidate. *)
Lemma probe_models_all_fail (candidates : list string)
    (last : option Exception) (log : list event) :
  (forall j, (j < length candidates)%nat ->
             exists e, answer_at up key candidates log j = Raises e) ->
  probe_models up key candidates last log
  = mkProbeState None
      (match length candidates with
       | O => last
       | S j => raised_by (answer_at up key candidates log j)
       end)
      (log ++ (EvCreate <$> (probe_call key <$> candidates))).
Proof.
  intros Hfail.
  rewrite (probe_models_skip candidates (length candidates) last log);
    [| lia | exact Hfail].
  rewrite drop_all, firstn_all. reflexivity.
Qed.

(** The loop ends in one of these two ways. *)
Lemma probe_models_cases (candidates : list string) :
  forall (last : option Exception) (log : list event),
    (exists i m,
        candidates !! i = Some m
        /\ (forall j, (j < i)%nat ->
                      exists e, answer_at up key candidates log j = Raises e)
        /\ raised_by (answer_at up key candidates log i) = None)
    \/ (forall j, (j < length candidates)%nat ->
                  exists e, answer_at up key candidates log j = Raises e).
Proof.
  induction candidates as [|m rest IH]; intros last log.
  - right. simpl. intros j Hj. lia.
  - destruct (create up log (probe_call key m)) as [e|chunks broken] eqn:Hm.
    + destruct (IH (Some e) (log ++ [EvCreate (probe_call key m)]))
        as [(i & m' & Hi & Hfail & Hok) | Hall].
      * left. exists (S i), m'. split; [exact Hi |]. split.
        -- intros [|j] Hj.
           ++ exists e. now rewrite answer_at_head.
           ++ rewrite answer_at_cons. apply Hfail. lia.
        -- now rewrite answer_at_cons.
      * right. intros [|j] Hj.
        -- exists e. now rewrite answer_at_head.
        -- rewrite answer_at_cons. apply Hall. simpl in Hj. lia.
    + left. exists O, m. split; [reflexivity |]. split.
      * intros j Hj. lia.
      * now rewrite answer_at_head, Hm.
Qed.

End ProbeFacts.

(** ** The candidates of the relay *)

Lemma candidate_truthy (i : nat) (m : string) :
  MODEL_CANDIDATES !! i = Some m -> truthy (Some m) = Some m.
Proof.
  intros H. do 4 (destruct i as [|i]; [inversion H; reflexivity |]).
  discriminate.
Qed.

Lemma probes_length (key : string) (n : nat) :
  (n <= 4)%nat -> length (probes key n) = n.
Proof.
  intros Hn. unfold probes. rewrite !length_fmap, length_take.
  change (length MODEL_CANDIDATES) with 4%nat. lia.
Qed.

(** ** The failure classifier *)


(** The first test alone: it is the one on the lower-cased text. *)
Lemma classify_429_iff (text : string) :
  classify text = 429 <-> mentions_any_case "quota" text.
Proof.
  unfold mentions_any_case, classify. rewrite <- contains_spec.
  destruct (PyStr.contains "insufficient_quota" text) eqn:Hiq.
  - apply contains_spec in Hiq. destruct Hiq as (before & after & ->).
    split; [intros _ | reflexivity].
    apply contains_spec.
    exists (PyStr.lower (before +:+ "insufficient_")),
           (PyStr.lower after).
    rewrite !lower_append, !append_assoc. reflexivity.
  - simpl. destruct (PyStr.contains "quota" (PyStr.lower text));
      [split; reflexivity |].
    destruct (PyStr.contains "model_not_found" text);
      [split; discriminate |].
    destruct (PyStr.contains "authentication" (PyStr.lower text)
              || PyStr.contains "invalid_api_key" (PyStr.lower text));
      split; discriminate.
Qed.

(** The quota class does not depend on the case of the text. *)
Lemma classify_429_case_invariant (s t : string) :
  PyStr.same_up_to_case s t -> classify s = 429 -> classify t = 429.
Proof.
  unfold PyStr.same_up_to_case. intros Hst.
  rewrite !classify_429_iff. unfold mentions_any_case. now rewrite Hst.
Qed.

(** ** The relay of the stream *)



(** ** What [chat] can give back *)

Section ChatFacts.

Variable up : Upstream.

Lemma probe_models_log (key : string) (candidates : list string)
    (last : option Exception) (log : list event) :
  exists n,
    calls (probe_models up key candidates last log)
    = log ++ (EvCreate <$> (probe_call key <$> take n candidates)).
Proof.
  destruct (probe_models_cases up key candidates last log)
    as [(i & m & Hm & Hfail & Hok) | Hall].
  - exists (S i).
    now rewrite (probe_models_first_success up key _ i m last log Hm Hfail Hok).
  - exists (length candidates).
    rewrite (probe_models_all_fail up key _ last log Hall).
    now rewrite firstn_all.
Qed.

Lemma chat_return (request : ChatRequest) (log log' : list event)
    (r : StreamingResponse) :
  chat up request log = (Return r, log') ->
  exists m,
    r = mkStreamingResponse (mkGenerator (api_key request) m request)
          "text/plain".
Proof.
  unfold chat, chat_try.
  destruct (OpenAI_init up (api_key request)); [discriminate |].
  destruct (truthy _) as [m|]; [| discriminate].
  intros H. inversion H. now exists m.
Qed.

Lemma chat_never_uncaught (request : ChatRequest) (log log' : list event)
    (e : Exception) :
  chat up request log <> (Raise (Uncaught e), log').
Proof.
  unfold chat. destruct (chat_try up request log) as [[r|[s d|e']] l];
    discriminate.
Qed.

(** The events of one request: the client, some probes, and the
    streaming call when a model works. *)
Lemma respond_chat_log (request : ChatRequest) (log : list event) :
  exists n tail,
    snd (respond_chat up request log)
    = log ++ EvClient (api_key request)
             :: (EvCreate <$> (probe_call (api_key request)
                                 <$> take n MODEL_CANDIDATES)) ++ tail
    /\ (tail = []
        \/ exists m, tail = [EvCreate (stream_call (api_key request) m
                                         request)]).
Proof.
  unfold respond_chat, chat, chat_try.
  destruct (OpenAI_init up (api_key request)) as [e|].
  - exists O, []. split; [| now left]. cbn [snd]. reflexivity.
  - destruct (probe_models_log (api_key request) MODEL_CANDIDATES None
                (log ++ [EvClient (api_key request)])) as [n Hn].
    rewrite Hn. exists n.
    destruct (truthy _) as [m|].
    + exists [EvCreate (stream_call (api_key request) m request)].
      split; [| right; now exists m].
      unfold generate. cbn [body_iterator gen_api_key gen_working_model
                              gen_request].
      destruct (create up _ _) as [e|chunks broken].
      * cbn [snd]. now rewrite <- !app_assoc.
      * destruct (relay_chunks chunks) as [out err]. cbn [snd].
        now rewrite <- !app_assoc.
    + exists []. split; [| now left]. cbn [snd].
      now rewrite app_nil_r, <- app_assoc.
Qed.

Lemma probe_models_cons (key m : string) (rest : list string)
    (last : option Exception) (log : list event) :
  probe_models up key (m :: rest) last log
  = match create up log (probe_call key m) with
    | Returns _ _ =>
        mkProbeState (Some m) last (log ++ [EvCreate (probe_call key m)])
    | Raises e =>
        probe_models up key rest (Some e)
          (log ++ [EvCreate (probe_call key m)])
    end.
Proof. reflexivity. Qed.

(** With a client, the first candidate is probed, whatever the request
    says. *)
Lemma respond_chat_probes_first (request : ChatRequest) (log : list event) :
  OpenAI_init up (api_key request) = None ->
  exists rest,
    snd (respond_chat up request log)
    = log ++ EvClient (api_key request)
             :: EvCreate (probe_call (api_key request) "gpt-4.1-nano")
             :: rest.
Proof.
  intros Hinit.
  assert (Hcalls : exists rest,
             calls (probe_models up (api_key request) MODEL_CANDIDATES None
                      (log ++ [EvClient (api_key request)]))
             = (log ++ [EvClient (api_key request)])
                 ++ EvCreate (probe_call (api_key request) "gpt-4.1-nano")
                 :: rest).
  { unfold MODEL_CANDIDATES. rewrite probe_models_cons.
    destruct (create up _ (probe_call (api_key request) "gpt-4.1-nano"))
      as [e|chunks broken].
    - destruct (probe_models_log (api_key request)
                  [ "gpt-4.1-mini"; "gpt-3.5-turbo"; "gpt-4.1" ] (Some e)
                  ((log ++ [EvClient (api_key request)])
                     ++ [EvCreate (probe_call (api_key request)
                                     "gpt-4.1-nano")]))
        as [n Hn].
      rewrite Hn, <- (app_assoc _ [_]). eexists. reflexivity.
    - cbn [calls]. eexists. reflexivity. }
  destruct Hcalls as [rest Hrest].
  unfold respond_chat, chat, chat_try. rewrite Hinit.
  destruct (truthy _) as [m|].
  - unfold generate.
    destruct (create up _ _) as [e'|stream broken];
      [| destruct (relay_chunks stream) as [out err]];
      cbn [snd]; rewrite Hrest, <- !app_assoc; cbn [app]; eexists;
        reflexivity.
  - cbn [snd]. rewrite Hrest, <- !app_assoc. cbn [app]. eexists.
    reflexivity.
Qed.

(** The answer when the candidate at position [i] is the first that
    works. *)
Lemma respond_chat_first_success (request : ChatRequest)
    (log : list event) (i : nat) (m : string) :
  OpenAI_init up (api_key request) = None ->
  MODEL_CANDIDATES !! i = Some m ->
  (forall j, (j < i)%nat ->
     exists e, probe_answer up (api_key request)
                 (log ++ [EvClient (api_key request)]) j = Raises e) ->
  raised_by (probe_answer up (api_key request)
               (log ++ [EvClient (api_key request)]) i) = None ->
  respond_chat up request log
  = let '(out, err, log') :=
      generate up (mkGenerator (api_key request) m request)
        ((log ++ [EvClient (api_key request)])
           ++ probes (api_key request) (S i)) in
    (StreamedBody 200 "text/plain" out err, log').
Proof.
  intros Hinit Hm Hfail Hok. unfold respond_chat, chat, chat_try.
  rewrite Hinit,
    (probe_models_first_success up (api_key request) MODEL_CANDIDATES i m
       None (log ++ [EvClient (api_key request)]) Hm Hfail Hok).
  cbn [working_model calls]. rewrite (candidate_truthy i m Hm).
  reflexivity.
Qed.

End ChatFacts.

(** * The claims *)

Section Claims.

Variable up : Upstream.

(** C1.  The probing loop of [POST /api/chat] goes through
    ["gpt-4.1-nano"], ["gpt-4.1-mini"], ["gpt-3.5-turbo"], ["gpt-4.1"] in
    that order; each probe is a non-streaming call with the single user
    message ["test"] and [max_tokens = 1].  When the candidate at
    position [i] (counted from 0) is the first whose probe does not
    raise, it is the working model, exactly [i + 1] probe calls are
    issued and none after it, and [last_exception] is the exception of
    the probe just before it (none when [i = 0]).  [chat] then returns
    the streaming response for that model. *)
Theorem C1_first_success_wins (request : ChatRequest) (log : list event)
    (i : nat) (m : string) :
  let key := api_key request in
  let log1 := log ++ [EvClient key] in
  OpenAI_init up key = None ->
  MODEL_CANDIDATES !! i = Some m ->
  (forall j, (j < i)%nat -> exists e, probe_answer up key log1 j = Raises e) ->
  raised_by (probe_answer up key log1 i) = None ->
  probe_models up key MODEL_CANDIDATES None log1
  = mkProbeState (Some m)
      (match i with
       | O => None
       | S j => raised_by (probe_answer up key log1 j)
       end)
      (log1 ++ probes key (S i))
  /\ chat up request log
     = (Return (mkStreamingResponse (mkGenerator key m request) "text/plain"),
        log1 ++ probes key (S i))
  /\ length (probes key (S i)) = S i
  /\ probes key (S i)
     = (fun model_name =>
          EvCreate (mkCall key model_name [ mkMessage "user" "test" ]
                      (Some 1) false))
       <$> take (S i) MODEL_CANDIDATES.
Proof.
  intros key log1 Hinit Hm Hfail Hok.
  assert (Hloop : probe_models up key MODEL_CANDIDATES None log1
                  = mkProbeState (Some m)
                      (match i with
                       | O => None
                       | S j => raised_by (probe_answer up key log1 j)
                       end)
                      (log1 ++ probes key (S i))).
  { apply probe_models_first_success; assumption. }
  split; [exact Hloop |]. split; [| split].
  - unfold chat, chat_try. fold key. fold log1. rewrite Hinit, Hloop.
    cbn [working_model last_exception calls].
    now rewrite (candidate_truthy i m Hm).
  - apply probes_length. pose proof (lookup_lt_Some _ _ _ Hm) as Hi.
    change (length MODEL_CANDIDATES) with 4%nat in Hi. lia.
  - unfold probes. now rewrite <- list_fmap_compose.
Qed.


(** C10.  The candidate list is not empty, so when the loop ends without
    a working model the exception of the last candidate has been
    captured: ["No models available"] is never the error message, and
    the detail of the [HTTPException] is the text of that exception. *)
Theorem C10_fallback_unreachable (request : ChatRequest) (log : list event) :
  let key := api_key request in
  let log1 := log ++ [EvClient key] in
  let st := probe_models up key MODEL_CANDIDATES None log1 in
  OpenAI_init up key = None ->
  truthy (working_model st) = None ->
  exists e,
    probe_answer up key log1 3 = Raises e
    /\ last_exception st = Some e
    /\ calls st = log1 ++ probes key 4
    /\ chat up request log
       = (Raise (HTTPException (classify (exc_text e)) (exc_text e)),
          log1 ++ probes key 4).
Proof.
  intros key log1 st Hinit Hnone.
  destruct (probe_models_cases up key MODEL_CANDIDATES None log1)
    as [(i & m & Hm & Hfail & Hok) | Hall].
  - exfalso. subst st.
    rewrite (probe_models_first_success up key _ i m None log1 Hm Hfail Hok)
      in Hnone.
    cbn [working_model] in Hnone.
    rewrite (candidate_truthy i m Hm) in Hnone. discriminate.
  - destruct (Hall 3%nat) as [e He];
      [change (length MODEL_CANDIDATES) with 4%nat; lia |].
    exists e. split; [exact He |].
    assert (Hst : st = mkProbeState None (Some e) (log1 ++ probes key 4)).
    { subst st. rewrite (probe_models_all_fail up key _ None log1 Hall).
      change (length MODEL_CANDIDATES) with 4%nat. cbv iota.
      unfold probe_answer in He. now rewrite He. }
    rewrite Hst. cbn [last_exception calls]. repeat split.
    unfold chat, chat_try. fold key. fold log1. fold st.
    now rewrite Hinit, Hst.
Qed.


(** C5.  A [POST /api/chat] whose body has no [api_key] or no
    [user_message] field is answered with the validation error, and the
    log is as it was: no client is constructed and no call is issued. *)
Theorem C5_missing_field_rejected (req : http_request)
    (fields : gmap string jvalue) (log : list event) :
  method req = "POST" ->
  path req = "/api/chat" ->
  body req = BodyObject fields ->
  fields !! "api_key" = None \/ fields !! "user_message" = None ->
  validate_ChatRequest (body req) = None
  /\ serve up req log = (ValidationError 422, log).
Proof.
  intros Hmethod Hpath Hbody Hmissing.
  assert (Hinvalid : validate_ChatRequest (body req) = None).
  { rewrite Hbody. unfold validate_ChatRequest.
    destruct (required_str fields "developer_message"); [| reflexivity].
    destruct Hmissing as [Hk | Hu].
    - unfold required_str at 2. rewrite Hk.
      destruct (required_str fields "user_message"); [| reflexivity].
      destruct (optional_str fields "model" _); reflexivity.
    - unfold required_str at 1. now rewrite Hu. }
  split; [exact Hinvalid |].
  unfold serve. now rewrite Hpath, Hmethod, Hinvalid.
Qed.

(** C6.  Two requests with the same [user_message] and [api_key], which
    may differ in [model] and [developer_message], go through the same
    probes to the same working model and get the same response after
    the same events.  Every event of a request carries its key only,
    and as message content only ["test"] or, in the streaming call, the
    [user_message]. *)
Theorem C6_model_and_developer_message_inert (r1 r2 : ChatRequest)
    (log : list event) :
  user_message r1 = user_message r2 ->
  api_key r1 = api_key r2 ->
  probe_models up (api_key r1) MODEL_CANDIDATES None
    (log ++ [EvClient (api_key r1)])
  = probe_models up (api_key r2) MODEL_CANDIDATES None
      (log ++ [EvClient (api_key r2)])
  /\ respond_chat up r1 log = respond_chat up r2 log
  /\ exists new,
       snd (respond_chat up r1 log) = log ++ new
       /\ Forall (carries_only r1) new.
Proof.
  intros Hu Hk. split; [now rewrite Hk |]. split.
  - unfold respond_chat, chat, chat_try. rewrite <- Hk.
    destruct (OpenAI_init up (api_key r1)) as [e|]; [reflexivity |].
    destruct (truthy _) as [m|]; [| reflexivity].
    unfold generate, stream_call.
    cbn [body_iterator gen_api_key gen_working_model gen_request media_type].
    now rewrite <- Hu.
  - destruct (respond_chat_log up r1 log) as (n & tail & Hlog & Htail).
    eexists. split; [exact Hlog |].
    constructor; [reflexivity |].
    apply Forall_app. split.
    + apply Forall_fmap, Forall_fmap, Forall_forall.
      intros m _. cbn. split; [reflexivity | now left].
    + destruct Htail as [-> | [m ->]]; [constructor |].
      constructor; [| constructor].
      cbn. split; [reflexivity | right; now split].
Qed.

(** C7.  [GET /api/health] is answered 200 with [{"status": "ok"}]
    whatever the provider, the log, the query, the headers and the
    body, and leaves the log as it was. *)
Theorem C7_health_constant (log : list event) (q : string)
    (h : list (string * string)) (b : request_body) :
  serve up (mkRequest "GET" "/api/health" q h b) log
  = (JSONResponse 200 {[ "status" := "ok" ]}, log).
Proof. reflexivity. Qed.

(** C8.  A body whose [user_message] is the empty string, and whose
    [developer_message] is any string (the empty one too), passes
    validation and goes to [chat], which does not look at the messages:
    the client is built, and with a client the first candidate is
    probed.  When the candidate at position [i] is the first that
    works, the answer is the 200 stream, and the last call issued is the
    streaming call on that candidate with the empty string as it is as
    the user content. *)
Theorem C8_empty_message_accepted (fields : gmap string jvalue)
    (d k : string) (mo : option string) (log : list event) :
  let request := mkChatRequest d "" mo k in
  let log1 := log ++ [EvClient k] in
  fields !! "developer_message" = Some (JString d) ->
  fields !! "user_message" = Some (JString "") ->
  optional_str fields "model" (Some "gpt-4.1") = Some mo ->
  fields !! "api_key" = Some (JString k) ->
  validate_ChatRequest (BodyObject fields) = Some request
  /\ serve up (post_chat fields) log = respond_chat up request log
  /\ (exists rest,
        snd (serve up (post_chat fields) log) = log ++ EvClient k :: rest)
  /\ (OpenAI_init up k = None ->
      exists rest,
        snd (serve up (post_chat fields) log)
        = log ++ EvClient k :: EvCreate (probe_call k "gpt-4.1-nano") :: rest)
  /\ (forall i m,
        OpenAI_init up k = None ->
        MODEL_CANDIDATES !! i = Some m ->
        (forall j, (j < i)%nat ->
           exists e, probe_answer up k log1 j = Raises e) ->
        raised_by (probe_answer up k log1 i) = None ->
        exists out err,
          serve up (post_chat fields) log
          = (StreamedBody 200 "text/plain" out err,
             (log1 ++ probes k (S i))
               ++ [EvCreate (mkCall k m [ mkMessage "user" "" ] None true)]))
  /\ forall r log',
       chat up request log = (Return r, log') ->
       snd (serve up (post_chat fields) log)
       = log' ++ [EvCreate (mkCall k (gen_working_model (body_iterator r))
                              [ mkMessage "user" "" ] None true)].
Proof.
  intros request log1 Hd Hu Hm Hk.
  assert (Hvalid : validate_ChatRequest (BodyObject fields) = Some request).
  { unfold validate_ChatRequest, required_str. now rewrite Hd, Hu, Hm, Hk. }
  assert (Hserve : serve up (post_chat fields) log
                   = respond_chat up request log).
  { unfold serve, post_chat. cbn [path method body].
    now rewrite Hvalid. }
  split; [exact Hvalid |]. split; [exact Hserve |]. rewrite Hserve.
  split; [| split; [| split]].
  - destruct (respond_chat_log up request log) as (n & tail & Hlog & _).
    eexists. exact Hlog.
  - intros Hinit. exact (respond_chat_probes_first up request log Hinit).
  - intros i m Hinit Hi Hfail Hok.
    rewrite (respond_chat_first_success up request log i m Hinit Hi Hfail Hok).
    unfold generate, stream_call.
    cbn [gen_api_key gen_working_model gen_request api_key user_message
           request].
    fold log1.
    destruct (create up _ _) as [e|chunks broken].
    + now exists [], (Some e).
    + destruct (relay_chunks chunks) as [out err]. now eexists out, _.
  - intros r log' Hchat.
    destruct (chat_return up request log log' r Hchat) as [m ->].
    unfold respond_chat. rewrite Hchat. unfold generate, stream_call.
    cbn [body_iterator gen_api_key gen_working_model gen_request api_key
           user_message request].
    destruct (create up _ _) as [e|chunks broken]; [reflexivity |].
    now destruct (relay_chunks chunks).
Qed.

(** C9.  An exception of the body of [chat] that is not an
    [HTTPException], such as one raised by the construction of the
    client, becomes [HTTPException 500] with its text as detail; an
    [HTTPException], which only the failure classifier raises, leaves
    [chat] with the status and the detail it has; nothing else leaves
    [chat]. *)
Theorem C9_outer_handler (request : ChatRequest) (log : list event) :
  (forall e,
      OpenAI_init up (api_key request) = Some e ->
      chat up request log
      = (Raise (HTTPException 500 (exc_text e)),
         log ++ [EvClient (api_key request)]))
  /\ (forall e l,
        chat_try up request log = (Raise (Uncaught e), l) ->
        chat up request log = (Raise (HTTPException 500 (exc_text e)), l))
  /\ (forall s d l,
        chat_try up request log = (Raise (HTTPException s d), l) ->
        s = classify d
        /\ chat up request log = (Raise (HTTPException s d), l))
  /\ (forall e l, chat up request log <> (Raise (Uncaught e), l)).
Proof.
  split; [| split; [| split]].
  - intros e He. unfold chat, chat_try. now rewrite He.
  - intros e l H. unfold chat. now rewrite H.
  - intros s d l H. split; [| unfold chat; now rewrite H].
    unfold chat_try in H.
    destruct (OpenAI_init up (api_key request)); [discriminate |].
    destruct (truthy _); [discriminate |]. now inversion H.
  - intros e l. apply chat_never_uncaught.
Qed.

End Claims.

(** ** The claims on concrete providers *)

(** C4.  The test for ["model_not_found"] is made on the text as it is,
    unlike the tests for ["quota"], ["authentication"] and
    ["invalid_api_key"], which are made on the lower-cased text: two
    texts that differ only in case get 404 and 500. *)
Theorem C4_model_not_found_case_sensitive :
  PyStr.same_up_to_case "MODEL_NOT_FOUND" "model_not_found"
  /\ fst (chat (all_fail "model_not_found") sample_request [])
     = Raise (HTTPException 404 "model_not_found")
  /\ fst (chat (all_fail "MODEL_NOT_FOUND") sample_request [])
     = Raise (HTTPException 500 "MODEL_NOT_FOUND").
Proof. repeat split. Qed.

Lemma C1_first_success_wins_witness :
  probe_models (only_works "gpt-3.5-turbo" []) "sk-test" MODEL_CANDIDATES
    None [EvClient "sk-test"]
  = mkProbeState (Some "gpt-3.5-turbo")
      (Some (mkException "NotFoundError" "gpt-4.1-mini"))
      ([EvClient "sk-test"] ++ probes "sk-test" 3)
  /\ length (probes "sk-test" 3) = 3%nat.
Proof.
  destruct (C1_first_success_wins (only_works "gpt-3.5-turbo" [])
              sample_request [] 2 "gpt-3.5-turbo")
    as (Hloop & _ & Hlen & _).
  - reflexivity.
  - reflexivity.
  - intros j Hj. destruct j as [|[|j]]; [eexists; reflexivity.. | lia].
  - reflexivity.
  - split; [exact Hloop | exact Hlen].
Defined.




Lemma C5_missing_field_rejected_witness :
  serve (all_work hello_chunks) (post_chat (delete "api_key" sample_fields)) []
  = (ValidationError 422, []).
Proof.
  destruct (C5_missing_field_rejected (all_work hello_chunks)
              (post_chat (delete "api_key" sample_fields))
              (delete "api_key" sample_fields) [])
    as (_ & Hserve).
  - reflexivity.
  - reflexivity.
  - reflexivity.
  - left. vm_compute. reflexivity.
  - exact Hserve.
Defined.

Lemma C6_model_and_developer_message_inert_witness :
  respond_chat (all_work hello_chunks) sample_request []
  = respond_chat (all_work hello_chunks) other_request [].
Proof.
  destruct (C6_model_and_developer_message_inert (all_work hello_chunks)
              sample_request other_request [])
    as (_ & Hresp & _).
  - reflexivity.
  - reflexivity.
  - exact Hresp.
Defined.

Lemma C8_empty_message_accepted_witness :
  validate_ChatRequest (BodyObject empty_fields)
  = Some (mkChatRequest "" "" (Some "gpt-4.1") "sk-test")
  /\ snd (serve (only_works "gpt-4.1-mini" hello_chunks)
            (post_chat empty_fields) [])
     = [ EvClient "sk-test";
         EvCreate (probe_call "sk-test" "gpt-4.1-nano");
         EvCreate (probe_call "sk-test" "gpt-4.1-mini");
         EvCreate (mkCall "sk-test" "gpt-4.1-mini" [ mkMessage "user" "" ]
                     None true) ]
  /\ exists out err,
       fst (serve (only_works "gpt-4.1-mini" hello_chunks)
              (post_chat empty_fields) [])
       = StreamedBody 200 "text/plain" out err.
Proof.
  destruct (C8_empty_message_accepted (only_works "gpt-4.1-mini" hello_chunks)
              empty_fields "" "sk-test" (Some "gpt-4.1") [])
    as (Hvalid & _ & _ & _ & Hworks & _).
  - vm_compute. reflexivity.
  - vm_compute. reflexivity.
  - vm_compute. reflexivity.
  - vm_compute. reflexivity.
  - destruct (Hworks 1%nat "gpt-4.1-mini") as (out & err & Hserve).
    + reflexivity.
    + reflexivity.
    + intros j Hj. destruct j as [|j]; [eexists; reflexivity | lia].
    + reflexivity.
    + split; [exact Hvalid |]. rewrite Hserve. split; [reflexivity |].
      now exists out, err.
Defined.

Lemma C9_outer_handler_witness :
  chat (no_client (mkException "OpenAIError" "no key")) sample_request []
  = (Raise (HTTPException 500 "no key"), [EvClient "sk-test"]).
Proof.
  destruct (C9_outer_handler (no_client (mkException "OpenAIError" "no key"))
              sample_request [])
    as (Hclient & _).
  exact (Hclient (mkException "OpenAIError" "no key") eq_refl).
Defined.

Lemma C10_fallback_unreachable_witness :
  exists e,
    probe_answer (all_fail "server down") "sk-test" [EvClient "sk-test"] 3
    = Raises e
    /\ last_exception
         (probe_models (all_fail "server down") "sk-test" MODEL_CANDIDATES
            None [EvClient "sk-test"])
       = Some e
    /\ exc_text e = "server down".
Proof.
  destruct (C10_fallback_unreachable (all_fail "server down") sample_request [])
    as (e & Hlast & Hexc & _).
  - reflexivity.
  - reflexivity.
  - exists e. repeat split; [exact Hlast | exact Hexc |].
    cbv in Hlast. now inversion Hlast.
Defined.

(** * Further properties of the relay *)

(** ** The classifier *)

Lemma insufficient_quota_has_quota (text : string) :
  PyStr.contains "insufficient_quota" text = true ->
  PyStr.contains "quota" (PyStr.lower text) = true.
Proof.
  rewrite !contains_spec. intros (before & after & ->).
  exists (PyStr.lower (before +:+ "insufficient_")), (PyStr.lower after).
  rewrite !lower_append, !append_assoc. reflexivity.
Qed.

(** The chain of tests with the first one reduced to its second half. *)
Lemma classify_chain (text : string) :
  classify text
  = if PyStr.contains "quota" (PyStr.lower text) then 429
    else if PyStr.contains "model_not_found" text then 404
    else if PyStr.contains "authentication" (PyStr.lower text)
            || PyStr.contains "invalid_api_key" (PyStr.lower text)
    then 401
    else 500.
Proof.
  unfold classify.
  destruct (PyStr.contains "insufficient_quota" text) eqn:Hiq;
    [| reflexivity].
  now rewrite (insufficient_quota_has_quota text Hiq).
Qed.

Lemma classify_in_error_statuses (text : string) :
  In (classify text) error_statuses.
Proof.
  rewrite classify_chain. unfold error_statuses.
  destruct (PyStr.contains "quota" _); [simpl; tauto |].
  destruct (PyStr.contains "model_not_found" _); [simpl; tauto |].
  destruct (_ || _); simpl; tauto.
Qed.

(** Each status says which words the error text has: 429 is given
    exactly to the texts with ["quota"] in any letter case (the test for
    ["insufficient_quota"] adds nothing to it), 404 exactly to the other
    texts with ["model_not_found"] as it is written, 401 exactly to the
    remaining texts of the credential class, and 500 to the rest. *)
Theorem classify_status_meaning (text : string) :
  (classify text = 429 <-> mentions_any_case "quota" text)
  /\ (classify text = 404 <->
      ~ mentions_any_case "quota" text /\ missing_model_text text)
  /\ (classify text = 401 <->
      ~ mentions_any_case "quota" text /\ ~ missing_model_text text
      /\ credential_text text)
  /\ (classify text = 500 <->
      ~ mentions_any_case "quota" text /\ ~ missing_model_text text
      /\ ~ credential_text text).
Proof.
  rewrite classify_chain.
  unfold missing_model_text, credential_text, mentions, mentions_any_case.
  destruct (PyStr.contains "quota" (PyStr.lower text)) eqn:Hq;
  destruct (PyStr.contains "model_not_found" text) eqn:Hm;
  destruct (PyStr.contains "authentication" (PyStr.lower text)) eqn:Ha;
  destruct (PyStr.contains "invalid_api_key" (PyStr.lower text)) eqn:Hk;
  rewrite ?contains_spec, ?contains_false in *; simpl;
  repeat split; intros; try reflexivity; try discriminate; tauto.
Qed.

(** Letter case matters to the classifier through ["model_not_found"]
    alone: two texts that differ only in case, and of which both or
    neither have ["model_not_found"] as it is written, get the same
    status. *)
Theorem classify_case_matters_only_for_model_not_found (s t : string) :
  PyStr.same_up_to_case s t ->
  (missing_model_text s <-> missing_model_text t) ->
  classify s = classify t.
Proof.
  unfold PyStr.same_up_to_case, missing_model_text, mentions.
  intros Hcase Hmodel. rewrite !classify_chain, Hcase.
  rewrite <- !contains_spec in Hmodel.
  destruct (PyStr.contains "model_not_found" s),
           (PyStr.contains "model_not_found" t);
    try reflexivity.
  - destruct Hmodel as [H _]. specialize (H eq_refl). discriminate.
  - destruct Hmodel as [_ H]. specialize (H eq_refl). discriminate.
Qed.

Lemma classify_case_matters_only_for_model_not_found_witness :
  classify "Incorrect API key: INVALID_API_KEY"
  = classify "incorrect api key: invalid_api_key".
Proof.
  apply (classify_case_matters_only_for_model_not_found
           "Incorrect API key: INVALID_API_KEY"
           "incorrect api key: invalid_api_key").
  - reflexivity.
  - unfold missing_model_text, mentions.
    rewrite <- !contains_spec. vm_compute. split; intros H; exact H.
Defined.

Section FurtherChat.

Variable up : Upstream.

(** Whatever exception leaves [chat] is an [HTTPException] whose status
    is 401, 404, 429 or 500. *)
Theorem chat_raises_error_status (request : ChatRequest)
    (log log' : list event) (exn : raised) :
  chat up request log = (Raise exn, log') ->
  exists status detail,
    exn = HTTPException status detail /\ In status error_statuses.
Proof.
  unfold chat, chat_try.
  destruct (OpenAI_init up (api_key request)) as [e|].
  - intros H. inversion H. exists 500, (exc_text e).
    split; [reflexivity | simpl; tauto].
  - destruct (truthy _) as [m|]; [discriminate |].
    intros H. inversion H. eexists _, _. split; [reflexivity |].
    apply classify_in_error_statuses.
Qed.

End FurtherChat.

Lemma chat_raises_error_status_witness :
  exists status detail,
    HTTPException 401 "invalid_api_key" = HTTPException status detail
    /\ In status error_statuses.
Proof.
  apply (chat_raises_error_status (all_fail "invalid_api_key") sample_request
           [] (snd (chat (all_fail "invalid_api_key") sample_request []))).
  reflexivity.
Defined.

(** ** The probing loop *)

Lemma candidates_NoDup : NoDup MODEL_CANDIDATES.
Proof.
  apply (bool_decide_unpack _). vm_compute. exact I.
Qed.

Lemma probes_NoDup (key : string) (n : nat) : NoDup (probes key n).
Proof.
  unfold probes. rewrite <- list_fmap_compose.
  apply NoDup_fmap_2_strong.
  - intros m m' _ _ H. now inversion H.
  - eapply sublist_NoDup; [apply candidates_NoDup | apply sublist_take].
Qed.

Lemma probes_length_of_loop (up : Upstream) (key : string)
    (last : option Exception) (log : list event) :
  exists n,
    (n <= 4)%nat
    /\ calls (probe_models up key MODEL_CANDIDATES last log)
       = log ++ probes key n.
Proof.
  destruct (probe_models_cases up key MODEL_CANDIDATES last log)
    as [(i & m & Hi & Hfail & Hok) | Hall].
  - exists (S i). pose proof (lookup_lt_Some _ _ _ Hi) as Hlt.
    change (length MODEL_CANDIDATES) with 4%nat in Hlt.
    rewrite (probe_models_first_success up key _ i m last log Hi Hfail Hok).
    split; [lia | reflexivity].
  - exists 4%nat.
    rewrite (probe_models_all_fail up key _ last log Hall).
    split; [lia | reflexivity].
Qed.

Section FurtherProbes.

Variable up : Upstream.

(** What [respond_chat] gives when no candidate works. *)
Lemma respond_chat_all_fail (request : ChatRequest) (log : list event)
    (e : Exception) :
  OpenAI_init up (api_key request) = None ->
  (forall j, (j < 4)%nat ->
     exists e', probe_answer up (api_key request)
                  (log ++ [EvClient (api_key request)]) j = Raises e') ->
  probe_answer up (api_key request) (log ++ [EvClient (api_key request)]) 3
  = Raises e ->
  respond_chat up request log
  = (JSONResponse (classify (exc_text e)) {[ "detail" := exc_text e ]},
     (log ++ [EvClient (api_key request)]) ++ probes (api_key request) 4).
Proof.
  intros Hinit Hall Hlast.
  unfold respond_chat, chat, chat_try.
  rewrite Hinit,
    (probe_models_all_fail up (api_key request) MODEL_CANDIDATES None
       (log ++ [EvClient (api_key request)]) Hall).
  change (length MODEL_CANDIDATES) with 4%nat.
  cbn [working_model last_exception calls truthy].
  change (answer_at up (api_key request) MODEL_CANDIDATES
            (log ++ [EvClient (api_key request)]) 3)
    with (probe_answer up (api_key request)
            (log ++ [EvClient (api_key request)]) 3).
  rewrite Hlast. reflexivity.
Qed.

(** The working model is the first candidate that works: it is a
    candidate, every candidate before it has been probed and has raised,
    its own probe has not, and no candidate after it has been probed. *)
Theorem working_model_is_first_success (key : string) (log : list event)
    (m : string) :
  working_model (probe_models up key MODEL_CANDIDATES None log) = Some m ->
  exists i,
    MODEL_CANDIDATES !! i = Some m
    /\ (forall j, (j < i)%nat ->
          exists e, probe_answer up key log j = Raises e)
    /\ raised_by (probe_answer up key log i) = None
    /\ calls (probe_models up key MODEL_CANDIDATES None log)
       = log ++ probes key (S i).
Proof.
  intros Hm.
  destruct (probe_models_cases up key MODEL_CANDIDATES None log)
    as [(i & m' & Hi & Hfail & Hok) | Hall].
  - rewrite (probe_models_first_success up key _ i m' None log Hi Hfail Hok)
      in Hm |- *.
    cbn [working_model calls] in Hm |- *. inversion Hm; subst m'.
    exists i. repeat split; assumption.
  - rewrite (probe_models_all_fail up key _ None log Hall) in Hm.
    discriminate.
Qed.

(** One request probes at least one and at most four candidates, in the
    order of the list and none of them twice, whatever the provider
    answers. *)
Theorem probes_between_one_and_four (key : string)
    (last : option Exception) (log : list event) :
  exists n,
    (1 <= n <= 4)%nat
    /\ calls (probe_models up key MODEL_CANDIDATES last log)
       = log ++ probes key n
    /\ NoDup (probes key n).
Proof.
  destruct (probe_models_cases up key MODEL_CANDIDATES last log)
    as [(i & m & Hi & Hfail & Hok) | Hall].
  - exists (S i). pose proof (lookup_lt_Some _ _ _ Hi) as Hlt.
    change (length MODEL_CANDIDATES) with 4%nat in Hlt.
    rewrite (probe_models_first_success up key _ i m last log Hi Hfail Hok).
    split; [lia |]. split; [reflexivity | apply probes_NoDup].
  - exists 4%nat.
    rewrite (probe_models_all_fail up key _ last log Hall).
    split; [lia |]. split; [reflexivity | apply probes_NoDup].
Qed.

End FurtherProbes.

(** When no candidate works, the answer is made from the exception of
    the last candidate alone: two runs in which all four probes raise
    and the fourth exceptions have the same text end in the same
    response, whatever the first three exceptions were. *)
Theorem total_failure_reports_last_error (up1 up2 : Upstream)
    (r1 r2 : ChatRequest) (l1 l2 : list event) (e1 e2 : Exception) :
  OpenAI_init up1 (api_key r1) = None ->
  OpenAI_init up2 (api_key r2) = None ->
  (forall j, (j < 4)%nat ->
     exists e, probe_answer up1 (api_key r1)
                 (l1 ++ [EvClient (api_key r1)]) j = Raises e) ->
  (forall j, (j < 4)%nat ->
     exists e, probe_answer up2 (api_key r2)
                 (l2 ++ [EvClient (api_key r2)]) j = Raises e) ->
  probe_answer up1 (api_key r1) (l1 ++ [EvClient (api_key r1)]) 3
  = Raises e1 ->
  probe_answer up2 (api_key r2) (l2 ++ [EvClient (api_key r2)]) 3
  = Raises e2 ->
  exc_text e1 = exc_text e2 ->
  fst (respond_chat up1 r1 l1) = fst (respond_chat up2 r2 l2).
Proof.
  intros Hi1 Hi2 Hall1 Hall2 Hlast1 Hlast2 Htext.
  rewrite (respond_chat_all_fail up1 r1 l1 e1 Hi1 Hall1 Hlast1).
  rewrite (respond_chat_all_fail up2 r2 l2 e2 Hi2 Hall2 Hlast2).
  cbn [fst]. now rewrite Htext.
Qed.

Lemma working_model_is_first_success_witness :
  exists i,
    MODEL_CANDIDATES !! i = Some "gpt-4.1"
    /\ calls (probe_models (only_works "gpt-4.1" []) "sk-test"
               MODEL_CANDIDATES None [])
       = probes "sk-test" (S i).
Proof.
  destruct (working_model_is_first_success (only_works "gpt-4.1" [])
              "sk-test" [] "gpt-4.1")
    as (i & Hi & _ & _ & Hcalls).
  - reflexivity.
  - exists i. split; [exact Hi | exact Hcalls].
Defined.

Lemma total_failure_reports_last_error_witness :
  fst (respond_chat
         (failing_with [ "model_not_found"; "invalid_api_key"; "timeout" ]
            "You exceeded your current quota")
         sample_request [])
  = fst (respond_chat (all_fail "You exceeded your current quota")
           other_request []).
Proof.
  apply (total_failure_reports_last_error
           (failing_with [ "model_not_found"; "invalid_api_key"; "timeout" ]
              "You exceeded your current quota")
           (all_fail "You exceeded your current quota")
           sample_request other_request [] []
           (mkException "APIError" "You exceeded your current quota")
           (mkException "APIError" "You exceeded your current quota")).
  - reflexivity.
  - reflexivity.
  - intros j Hj. eexists. reflexivity.
  - intros j Hj. eexists. reflexivity.
  - reflexivity.
  - reflexivity.
  - reflexivity.
Defined.

(** ** The relay of the stream *)

Lemma relay_chunks_readable (stream : list Chunk) :
  relay_chunks stream
  = (omap first_delta (readable stream),
     if forallb has_choice stream then None else Some IndexError).
Proof.
  induction stream as [|chunk rest IH]; [reflexivity |].
  cbn [relay_chunks readable forallb].
  assert (Hh : has_choice chunk
               = match choices chunk with [] => false | _ :: _ => true end)
    by reflexivity.
  rewrite !Hh.
  destruct (choices chunk) as [|choice others] eqn:Hchoices; [reflexivity |].
  cbn [andb omap list_omap]. unfold first_delta at 1. rewrite Hchoices, IH.
  now destruct (delta_content choice).
Qed.

Lemma readable_all (stream : list Chunk) :
  forallb has_choice stream = true -> readable stream = stream.
Proof.
  induction stream as [|c rest IH]; [reflexivity |].
  cbn [forallb readable]. intros [Hc Hrest]%andb_true_iff.
  now rewrite Hc, (IH Hrest).
Qed.

Lemma readable_app_headless (before after : list Chunk) (chunk : Chunk) :
  forallb has_choice before = true ->
  has_choice chunk = false ->
  readable (before ++ chunk :: after) = before
  /\ forallb has_choice (before ++ chunk :: after) = false.
Proof.
  intros Hbefore Hchunk.
  induction before as [|c rest IH].
  - cbn [app readable forallb]. now rewrite Hchunk.
  - cbn [forallb] in Hbefore. apply andb_true_iff in Hbefore as [Hc Hrest].
    destruct (IH Hrest) as [IHr IHf].
    cbn [app readable forallb]. now rewrite Hc, IHr, IHf.
Qed.

(** The loop of [generate] stops at the first chunk without choices: it
    yields the content deltas of the chunks before it that are not
    absent, in order, raises [IndexError] there, and reads nothing of
    what comes after. *)
Theorem relay_chunks_stops_at_chunk_without_choices
    (before after : list Chunk) (chunk : Chunk) :
  Forall (fun c => choices c <> []) before ->
  choices chunk = [] ->
  relay_chunks (before ++ chunk :: after)
  = (omap first_delta before, Some IndexError).
Proof.
  intros Hbefore Hchunk.
  assert (Hb : forallb has_choice before = true).
  { apply forallb_forall. intros c Hc.
    rewrite Forall_forall in Hbefore.
    specialize (Hbefore c (proj2 (list_elem_of_In _ _) Hc)).
    unfold has_choice. now destruct (choices c). }
  assert (Hc : has_choice chunk = false).
  { unfold has_choice. now rewrite Hchunk. }
  destruct (readable_app_headless before after chunk Hb Hc) as [Hr Hf].
  now rewrite relay_chunks_readable, Hr, Hf.
Qed.

(** Only the first choice of a chunk is read: the other choices of a
    chunk change nothing to what is yielded. *)
Theorem relay_chunks_reads_first_choice_only (stream : list Chunk) :
  relay_chunks (first_choice_only <$> stream) = relay_chunks stream.
Proof.
  induction stream as [|chunk rest IH]; [reflexivity |].
  cbn [fmap list_fmap relay_chunks]. unfold first_choice_only at 1.
  cbn [choices]. fold (fmap first_choice_only rest).
  destruct (choices chunk) as [|choice others]; [reflexivity |].
  cbn [take]. rewrite IH. reflexivity.
Qed.

Section FurtherResponses.

Variable up : Upstream.

(** A failure of the streaming call is not classified: once [chat] has
    returned, the response is 200 [text/plain] whatever the call does.
    If the call raises, the body is empty and aborted with that
    exception; if the stream breaks after its chunks, the body has the
    deltas delivered so far and is aborted with the exception of the
    stream; if a chunk has no choices, the body has the deltas before
    that chunk and is aborted with [IndexError]. *)
Theorem streaming_failure_stays_in_the_body (request : ChatRequest)
    (log log' : list event) (r : StreamingResponse) :
  let call := stream_call (api_key request)
                (gen_working_model (body_iterator r)) request in
  chat up request log = (Return r, log') ->
  (forall e,
      create up log' call = Raises e ->
      respond_chat up request log
      = (StreamedBody 200 "text/plain" [] (Some e), log' ++ [EvCreate call]))
  /\ (forall stream e,
        create up log' call = Returns stream (Some e) ->
        forallb has_choice stream = true ->
        respond_chat up request log
        = (StreamedBody 200 "text/plain" (omap first_delta stream) (Some e),
           log' ++ [EvCreate call]))
  /\ (forall stream broken,
        create up log' call = Returns stream broken ->
        forallb has_choice stream = false ->
        respond_chat up request log
        = (StreamedBody 200 "text/plain"
             (omap first_delta (readable stream)) (Some IndexError),
           log' ++ [EvCreate call])).
Proof.
  intros call Hchat.
  destruct (chat_return up request log log' r Hchat) as [m ->].
  cbn [body_iterator gen_working_model] in call.
  assert (Hresp : respond_chat up request log
                  = let '(out, err, log'') :=
                      generate up (mkGenerator (api_key request) m request)
                        log' in
                    (StreamedBody 200 "text/plain" out err, log'')).
  { unfold respond_chat. now rewrite Hchat. }
  rewrite Hresp. unfold generate.
  cbn [gen_api_key gen_working_model gen_request]. fold call.
  split; [| split].
  - intros e He. now rewrite He.
  - intros stream e He Hall. rewrite He.
    now rewrite relay_chunks_readable, Hall, (readable_all stream Hall).
  - intros stream broken He Hall. rewrite He.
    now rewrite relay_chunks_readable, Hall.
Qed.

(** Every answer to a validated [POST /api/chat] has one of three
    shapes.  The client cannot be built: 500 with the text of its
    exception, and no call.  No candidate works: the classified error
    of the fourth probe, after four probes and no streaming call.  A
    candidate works: a 200 [text/plain] body, after the probes up to
    that candidate and one streaming call, which is the last event. *)
Theorem respond_chat_shapes (request : ChatRequest) (log : list event) :
  let key := api_key request in
  let log1 := log ++ [EvClient key] in
  (exists e,
      OpenAI_init up key = Some e
      /\ respond_chat up request log
         = (JSONResponse 500 {[ "detail" := exc_text e ]}, log1))
  \/ (exists e,
        probe_answer up key log1 3 = Raises e
        /\ respond_chat up request log
           = (JSONResponse (classify (exc_text e))
                {[ "detail" := exc_text e ]},
              log1 ++ probes key 4))
  \/ (exists i m out err,
        MODEL_CANDIDATES !! i = Some m
        /\ respond_chat up request log
           = (StreamedBody 200 "text/plain" out err,
              log1 ++ probes key (S i)
                ++ [EvCreate (stream_call key m request)])).
Proof.
  intros key log1.
  destruct (OpenAI_init up key) as [e|] eqn:Hinit.
  - left. exists e. split; [reflexivity |].
    unfold respond_chat, chat, chat_try. fold key. now rewrite Hinit.
  - right.
    destruct (probe_models_cases up key MODEL_CANDIDATES None log1)
      as [(i & m & Hi & Hfail & Hok) | Hall].
    + right. exists i, m.
      unfold respond_chat, chat, chat_try. fold key. fold log1.
      rewrite Hinit,
        (probe_models_first_success up key _ i m None log1 Hi Hfail Hok).
      cbn [working_model calls]. rewrite (candidate_truthy i m Hi).
      unfold generate. cbn [body_iterator gen_api_key gen_working_model
                              gen_request media_type].
      destruct (create up _ _) as [e|stream broken].
      * exists [], (Some e). split; [exact Hi |]. now rewrite <- app_assoc.
      * destruct (relay_chunks stream) as [out err].
        eexists out, _. split; [exact Hi |]. now rewrite <- app_assoc.
    + left. destruct (Hall 3%nat) as [e He];
        [change (length MODEL_CANDIDATES) with 4%nat; lia |].
      exists e. split; [exact He |].
      now apply respond_chat_all_fail.
Qed.

End FurtherResponses.

Lemma streaming_failure_stays_in_the_body_witness :
  fst (respond_chat
         (stream_raises (mkException "RateLimitError" "insufficient_quota"))
         sample_request [])
  = StreamedBody 200 "text/plain" []
      (Some (mkException "RateLimitError" "insufficient_quota")).
Proof.
  destruct (streaming_failure_stays_in_the_body
              (stream_raises (mkException "RateLimitError" "insufficient_quota"))
              sample_request []
              [EvClient "sk-test"; EvCreate (probe_call "sk-test" "gpt-4.1-nano")]
              (mkStreamingResponse
                 (mkGenerator "sk-test" "gpt-4.1-nano" sample_request)
                 "text/plain"))
    as (Hraise & _).
  - reflexivity.
  - rewrite (Hraise (mkException "RateLimitError" "insufficient_quota"));
      reflexivity.
Defined.

Lemma relay_chunks_stops_at_chunk_without_choices_witness :
  relay_chunks headless_chunks = ([ "Hel" ], Some IndexError).
Proof.
  apply (relay_chunks_stops_at_chunk_without_choices
           [ text_chunk (Some "Hel") ] [ text_chunk (Some "lo") ]
           (mkChunk [])).
  - constructor; [discriminate | constructor].
  - reflexivity.
Defined.

(** ** Validation and routing *)

Lemma respond_chat_same_message_and_key (up : Upstream)
    (r1 r2 : ChatRequest) (log : list event) :
  user_message r1 = user_message r2 ->
  api_key r1 = api_key r2 ->
  respond_chat up r1 log = respond_chat up r2 log.
Proof.
  intros Hu Hk. unfold respond_chat, chat, chat_try. rewrite <- Hk.
  destruct (OpenAI_init up (api_key r1)) as [e|]; [reflexivity |].
  destruct (truthy _) as [m|]; [| reflexivity].
  unfold generate, stream_call.
  cbn [body_iterator gen_api_key gen_working_model gen_request media_type].
  now rewrite <- Hu.
Qed.

Lemma serve_post_chat (up : Upstream) (fields : gmap string jvalue)
    (log : list event) :
  serve up (post_chat fields) log
  = match validate_ChatRequest (BodyObject fields) with
    | None => (ValidationError 422, log)
    | Some request => respond_chat up request log
    end.
Proof. reflexivity. Qed.

(** A body that spells out the four fields of a request validates to
    that request, whatever the strings are and with [model] null for a
    request without model. *)
Theorem validate_fields_of (request : ChatRequest) :
  validate_ChatRequest (BodyObject (fields_of request)) = Some request.
Proof.
  destruct request as [d u mo k].
  unfold validate_ChatRequest, required_str, optional_str, fields_of.
  cbn [developer_message user_message model api_key].
  rewrite lookup_insert_eq.
  rewrite lookup_insert_ne, lookup_insert_eq by discriminate.
  rewrite !lookup_insert_ne, lookup_insert_eq by discriminate.
  rewrite !lookup_insert_ne, lookup_singleton_eq by discriminate.
  now destruct mo.
Qed.

Section FurtherServe.

Variable up : Upstream.

(** A field that [ChatRequest] does not declare is ignored: adding it
    to a body, with any value, changes neither the validation nor the
    answer. *)
Theorem undeclared_field_ignored (fields : gmap string jvalue)
    (name : string) (v : jvalue) (log : list event) :
  ~ In name schema_fields ->
  validate_ChatRequest (BodyObject (<[name := v]> fields))
  = validate_ChatRequest (BodyObject fields)
  /\ serve up (post_chat (<[name := v]> fields)) log
     = serve up (post_chat fields) log.
Proof.
  intros Hname.
  assert (Hvalid : validate_ChatRequest (BodyObject (<[name := v]> fields))
                   = validate_ChatRequest (BodyObject fields)).
  { unfold validate_ChatRequest, required_str, optional_str.
    rewrite !lookup_insert_ne; [reflexivity | ..];
      intros ->; apply Hname; simpl; tauto. }
  split; [exact Hvalid |]. now rewrite !serve_post_chat, Hvalid.
Qed.

(** [developer_message] is required although the relay never uses it: a
    [POST /api/chat] without it is answered with the validation error
    and nothing is done upstream. *)
Theorem missing_developer_message_rejected (fields : gmap string jvalue)
    (log : list event) :
  fields !! "developer_message" = None ->
  serve up (post_chat fields) log = (ValidationError 422, log).
Proof.
  intros Hd. rewrite serve_post_chat.
  unfold validate_ChatRequest, required_str at 1. now rewrite Hd.
Qed.

(** [model] is optional: a body with the three required strings
    validates without it, to a request whose model is ["gpt-4.1"], and
    with [model] null, to a request without model; and with no [model],
    a null one or any string as [model] the answer is the same. *)
Theorem model_field_optional_and_inert (fields : gmap string jvalue)
    (d u k : string) (log : list event) :
  fields !! "developer_message" = Some (JString d) ->
  fields !! "user_message" = Some (JString u) ->
  fields !! "api_key" = Some (JString k) ->
  validate_ChatRequest (BodyObject (delete "model" fields))
  = Some (mkChatRequest d u (Some "gpt-4.1") k)
  /\ validate_ChatRequest (BodyObject (<["model" := JNull]> fields))
     = Some (mkChatRequest d u None k)
  /\ serve up (post_chat (<["model" := JNull]> fields)) log
     = serve up (post_chat (delete "model" fields)) log
  /\ forall m,
       serve up (post_chat (<["model" := JString m]> fields)) log
       = serve up (post_chat (delete "model" fields)) log.
Proof.
  intros Hd Hu Hk.
  assert (Habsent : validate_ChatRequest (BodyObject (delete "model" fields))
                    = Some (mkChatRequest d u (Some "gpt-4.1") k)).
  { unfold validate_ChatRequest, required_str, optional_str.
    rewrite lookup_delete_eq, !lookup_delete_ne by discriminate.
    now rewrite Hd, Hu, Hk. }
  assert (Hset : forall v mo,
             optional_str (<["model" := v]> fields) "model" (Some "gpt-4.1")
             = Some mo ->
             validate_ChatRequest (BodyObject (<["model" := v]> fields))
             = Some (mkChatRequest d u mo k)).
  { intros v mo Hmo. unfold validate_ChatRequest. rewrite Hmo.
    unfold required_str. rewrite !lookup_insert_ne by discriminate.
    now rewrite Hd, Hu, Hk. }
  assert (Hnull : validate_ChatRequest (BodyObject (<["model" := JNull]> fields))
                  = Some (mkChatRequest d u None k)).
  { apply Hset. unfold optional_str. now rewrite lookup_insert_eq. }
  split; [exact Habsent |]. split; [exact Hnull |]. split.
  - rewrite !serve_post_chat, Hnull, Habsent.
    now apply respond_chat_same_message_and_key.
  - intros m. rewrite !serve_post_chat, Habsent.
    rewrite (Hset (JString m) (Some m)).
    + now apply respond_chat_same_message_and_key.
    + unfold optional_str. now rewrite lookup_insert_eq.
Qed.

(** The relay only ever adds to what has been done upstream, and it
    adds nothing unless the request is a [POST /api/chat] with a valid
    body. *)
Theorem upstream_used_only_by_valid_post_chat (req : http_request)
    (log : list event) :
  (exists new, snd (serve up req log) = log ++ new)
  /\ (method req <> "POST" \/ path req <> "/api/chat"
      \/ validate_ChatRequest (body req) = None ->
      snd (serve up req log) = log).
Proof.
  unfold serve.
  destruct (String.eqb_spec (path req) "/api/health") as [Hh|Hh].
  { split; [exists []; destruct (String.eqb _ _); cbn [snd];
                     now rewrite app_nil_r |].
    intros _. now destruct (String.eqb _ _). }
  destruct (String.eqb_spec (path req) "/api/chat") as [Hc|Hc];
    [| split; [exists []; cbn [snd]; now rewrite app_nil_r | reflexivity]].
  destruct (String.eqb_spec (method req) "POST") as [Hp|Hp];
    [| split; [exists []; cbn [snd]; now rewrite app_nil_r | reflexivity]].
  destruct (validate_ChatRequest (body req)) as [request|] eqn:Hv.
  - split.
    + destruct (respond_chat_log up request log) as (n & tail & Hlog & _).
      eexists. exact Hlog.
    + intros [H | [H | H]]; [contradiction | contradiction | discriminate].
  - split; [exists []; cbn [snd]; now rewrite app_nil_r | reflexivity].
Qed.

End FurtherServe.

Lemma undeclared_field_ignored_witness :
  serve (all_work hello_chunks)
    (post_chat (<["temperature" := JNumber 1]> sample_fields)) []
  = serve (all_work hello_chunks) (post_chat sample_fields) [].
Proof.
  destruct (undeclared_field_ignored (all_work hello_chunks) sample_fields
              "temperature" (JNumber 1) [])
    as (_ & Hserve).
  - simpl. intros H. decompose [or] H; discriminate || contradiction.
  - exact Hserve.
Defined.

Lemma missing_developer_message_rejected_witness :
  serve (all_work hello_chunks)
    (post_chat (delete "developer_message" sample_fields)) []
  = (ValidationError 422, []).
Proof.
  apply (missing_developer_message_rejected (all_work hello_chunks)
           (delete "developer_message" sample_fields) []).
  vm_compute. reflexivity.
Defined.

Lemma model_field_optional_and_inert_witness :
  serve (all_work hello_chunks)
    (post_chat (<["model" := JString "gpt-4o"]> sample_fields)) []
  = serve (all_work hello_chunks) (post_chat (delete "model" sample_fields)) [].
Proof.
  destruct (model_field_optional_and_inert (all_work hello_chunks)
              sample_fields "be brief" "hi" "sk-test" [])
    as (_ & _ & _ & Hany).
  - vm_compute. reflexivity.
  - vm_compute. reflexivity.
  - vm_compute. reflexivity.
  - exact (Hany "gpt-4o").
Defined.

Lemma upstream_used_only_by_valid_post_chat_witness :
  snd (serve (all_work hello_chunks)
         (mkRequest "GET" "/api/chat" "" [] (BodyObject sample_fields))
         [EvClient "earlier"])
  = [EvClient "earlier"].
Proof.
  destruct (upstream_used_only_by_valid_post_chat (all_work hello_chunks)
              (mkRequest "GET" "/api/chat" "" [] (BodyObject sample_fields))
              [EvClient "earlier"])
    as (_ & Hsame).
  apply Hsame. left. discriminate.
Defined.

(** ** What has happened when [chat] returns *)

(** [chat] itself only builds the client and probes: when it returns or
    raises, at most four calls have been issued and none of them is a
    streaming call.  The streaming call is left to the iteration of the
    response. *)
Theorem chat_issues_only_probes (up : Upstream) (request : ChatRequest)
    (log : list event) :
  exists n,
    (n <= 4)%nat
    /\ snd (chat up request log)
       = log ++ EvClient (api_key request) :: probes (api_key request) n
    /\ Forall (fun ev => is_streaming ev = false)
         (EvClient (api_key request) :: probes (api_key request) n).
Proof.
  assert (Hquiet : forall n,
             Forall (fun ev => is_streaming ev = false)
               (EvClient (api_key request) :: probes (api_key request) n)).
  { intros n. constructor; [reflexivity |].
    unfold probes. apply Forall_fmap, Forall_fmap, Forall_forall.
    intros m _. reflexivity. }
  assert (Hsnd : snd (chat up request log) = snd (chat_try up request log)).
  { unfold chat. now destruct (chat_try up request log) as [[r|[s d|e]] l]. }
  rewrite Hsnd. unfold chat_try.
  destruct (OpenAI_init up (api_key request)) as [e|].
  - exists O. split; [lia |]. split; [reflexivity | apply Hquiet].
  - destruct (probes_length_of_loop up (api_key request) None
                (log ++ [EvClient (api_key request)])) as (n & Hn & Hcalls).
    exists n. split; [exact Hn |]. split; [| apply Hquiet].
    destruct (truthy _); cbn [snd]; rewrite Hcalls;
      now rewrite <- app_assoc.
Qed.
